(** * The PXE plugin of coredhcp (plugins/pxe/pxe.go)

    A shallow embedding of the plugin's two functions, [setup4] and
    [pxeHandler4], together with the part of the message abstraction of
    github.com/insomniacslk/dhcp/dhcpv4 that they call.

    Go values are modelled as follows.
    - [uint8] and the elements of [[]byte] and [string] are [Byte.byte];
      a [[]byte] or a [string] is a [list byte] (Go's [len] counts bytes,
      [strings.HasPrefix] compares bytes).  The nil slice and the empty
      slice are both [[]]: the plugin only takes [len] of slices and
      stores them, it never writes into one.  A slice is held by its
      bytes, not by its backing array: that option 43 of an augmented
      reply is the very slice of the template ([OptionGeneric.ToBytes]
      returns its [Data]), and option 97 the slice of the request, does
      not show.  This is exact for runs of [setup4] and [pxeHandler4],
      which write into no slice; what other code does by writing into
      the bytes of a reply in place is outside the model, and no
      theorem here speaks of it.
    - [*dhcpv4.DHCPv4] is an address into a heap of messages; an address
      with no message is how nil is represented, and dereferencing it
      panics.
    - [dhcpv4.Options] is [map[uint8][]byte], a reference type: the
      [Options] field of a message holds either nil or a reference into a
      heap of maps, so two messages can share one map.
    - The package variables [opt43] and [opt60] are pointers to option
      values; nil is [None].
    - A function that can panic or write to the heap lives in the monad
      [M S], which threads the state and keeps it when a panic unwinds. *)

From Stdlib Require Import Strings.Byte Strings.String.
From stdpp Require Import gmap strings list fin_maps.

#[global] Instance byte_eq_dec : EqDecision byte := Byte.byte_eq_dec.
#[global] Instance byte_countable : Countable byte :=
  inj_countable Byte.to_N Byte.of_N Byte.of_to_N.

(** ** Panics and state *)

Inductive outcome (A : Type) : Type :=
| Done (a : A)
| Panic (why : string).
Arguments Done {A} a.
Arguments Panic {A} why.

Definition M (S A : Type) : Type := S → outcome A * S.

Definition ret {S A} (a : A) : M S A := λ s, (Done a, s).

Definition bind {S A B} (m : M S A) (k : A → M S B) : M S B :=
  λ s, match m s with
       | (Done a, s') => k a s'
       | (Panic why, s') => (Panic why, s')
       end.

Definition panic {S A} (why : string) : M S A := λ s, (Panic why, s).

Definition gets {S A} (f : S → A) : M S A := λ s, (Done (f s), s).

Definition modify {S} (f : S → S) : M S unit := λ s, (Done tt, f s).

(** Runs a computation on a component of a larger state. *)
Definition zoom {S T A} (proj : T → S) (upd : S → T → T) (m : M S A) : M T A :=
  λ t, let (o, s') := m (proj t) in (o, upd s' t).

Declare Scope go_scope.
Delimit Scope go_scope with go.
Notation "x <- c1 ;; c2" := (bind c1 (λ x, c2))
  (at level 100, c1 at next level, right associativity) : go_scope.
Notation "c1 ;; c2" := (bind c1 (λ _, c2))
  (at level 100, right associativity) : go_scope.
Open Scope go_scope.

(** ** Package dhcpv4: the calls the plugin makes *)

(** Modelled from the spec: the message abstraction the plugin consumes
    (get an option, set an option, the class identifier accessor), which
    belongs to the library github.com/insomniacslk/dhcp and is not among
    the sources.  Each definition follows the Go function quoted above
    it, with what Go does on nil: reading a nil map gives the zero value,
    assigning into one panics, and so does dereferencing a nil pointer. *)

Module dhcpv4.

(** [OptionCode] is an interface whose [Code()] is a [uint8]. *)
Definition OptionCode : Type := byte.

Definition OptionVendorSpecificInformation : OptionCode := x2b. (* 43 *)
Definition OptionClassIdentifier : OptionCode := x3c.           (* 60 *)
Definition OptionClientMachineIdentifier : OptionCode := x61.   (* 97 *)

(** The two implementations of [OptionValue] the plugin builds. *)
Inductive OptionValue : Type :=
| String (s : list byte)
| OptionGeneric (Data : list byte).

Definition ToBytes (v : OptionValue) : list byte :=
  match v with
  | String s => s
  | OptionGeneric Data => Data
  end.

Record Option : Type := { Code : OptionCode; Value : OptionValue }.

Definition OptClassIdentifier (name : list byte) : Option :=
  {| Code := OptionClassIdentifier; Value := String name |}.

Definition OptGeneric (code : OptionCode) (value : list byte) : Option :=
  {| Code := code; Value := OptionGeneric value |}.

Definition addr : Type := positive.
Definition mref : Type := positive.

(** Of the fields of the message struct only [Options] is used. *)
Record DHCPv4 : Type := { Options : option mref }.

Record memory : Type := {
  msgs : gmap addr DHCPv4;
  maps : gmap mref (gmap byte (list byte))
}.

(** The map a reference denotes; a reference never written to denotes
    the empty map. *)
Definition map_at (μ : memory) (r : mref) : gmap byte (list byte) :=
  default ∅ (maps μ !! r).

Definition store_map (r : mref) (o : gmap byte (list byte)) (μ : memory) : memory :=
  {| msgs := msgs μ; maps := <[r := o]> (maps μ) |}.

Definition store_msg (d : addr) (m : DHCPv4) (μ : memory) : memory :=
  {| msgs := <[d := m]> (msgs μ); maps := maps μ |}.

(** [*d] *)
Definition deref (d : addr) : M memory DHCPv4 :=
  λ μ, match msgs μ !! d with
       | Some m => (Done m, μ)
       | None => (Panic "invalid memory address or nil pointer dereference", μ)
       end.

(** [make(Options)] *)
Definition make_Options : M memory mref :=
  λ μ, let r := fresh (dom (maps μ)) in (Done r, store_map r ∅ μ).

(** [func (o Options) Get(code OptionCode) []byte { return o[code.Code()] }]
    Reading a nil map gives the zero value, as does a missing key. *)
Definition Options_Get (o : option mref) (code : OptionCode) : M memory (list byte) :=
  match o with
  | None => ret []
  | Some r => gets (λ μ, default [] (map_at μ r !! code))
  end.

(** [func (o Options) Update(option Option) {
      o[option.Code.Code()] = option.Value.ToBytes() }]
    Assigning into a nil map panics. *)
Definition Options_Update (o : option mref) (opt : Option) : M memory unit :=
  match o with
  | None => panic "assignment to entry in nil map"
  | Some r =>
      modify (λ μ, store_map r (<[Code opt := ToBytes (Value opt)]> (map_at μ r)) μ)
  end.

(** [func GetString(code OptionCode, o Options) string]:
    [v := o.Get(code)]; the empty string when [v == nil], else
    [string(v)]. *)
Definition GetString (code : OptionCode) (o : option mref) : M memory (list byte) :=
  v <- Options_Get o code ;;
  match v with
  | [] => ret []
  | _ => ret v
  end.

(** [func (d *DHCPv4) ClassIdentifier() string {
      return GetString(OptionClassIdentifier, d.Options) }] *)
Definition ClassIdentifier (d : addr) : M memory (list byte) :=
  m <- deref d ;;
  GetString OptionClassIdentifier (Options m).

(** [func (d *DHCPv4) GetOneOption(code OptionCode) []byte {
      return d.Options.Get(code) }] *)
Definition GetOneOption (d : addr) (code : OptionCode) : M memory (list byte) :=
  m <- deref d ;;
  Options_Get (Options m) code.

(** [func (d *DHCPv4) UpdateOption(opt Option) {
      if d.Options == nil { d.Options = make(Options) }
      d.Options.Update(opt) }] *)
Definition UpdateOption (d : addr) (opt : Option) : M memory unit :=
  m <- deref d ;;
  o <- match Options m with
       | None =>
           r <- make_Options ;;
           modify (store_msg d {| Options := Some r |}) ;;
           ret (Some r)
       | Some r => ret (Some r)
       end ;;
  Options_Update o opt.

End dhcpv4.

Import dhcpv4.

(** ** Package strings *)

(** [strings.HasPrefix(s, prefix)]:
    [len(s) >= len(prefix) && s[:len(prefix)] == prefix] *)
Definition HasPrefix (s prefix : list byte) : bool :=
  (length prefix <=? length s) && bool_decide (take (length prefix) s = prefix).

(** ** Package pxe *)

(** The state of the program as far as the plugin can see it. *)
Record state : Type := {
  opt43 : option Option;   (* var opt43 *dhcpv4.Option *)
  opt60 : option Option;   (* var opt60 *dhcpv4.Option *)
  mem : memory;
  logged : list string     (* what went to the logger, oldest first *)
}.

Definition with_mem (μ : memory) (s : state) : state :=
  {| opt43 := opt43 s; opt60 := opt60 s; mem := μ; logged := logged s |}.

Definition set_opt60 (p : option Option) : M state unit :=
  modify (λ s, {| opt43 := opt43 s; opt60 := p; mem := mem s; logged := logged s |}).

Definition set_opt43 (p : option Option) : M state unit :=
  modify (λ s, {| opt43 := p; opt60 := opt60 s; mem := mem s; logged := logged s |}).

Definition log (line : string) : M state unit :=
  modify (λ s, {| opt43 := opt43 s; opt60 := opt60 s; mem := mem s;
                  logged := logged s ++ [line] |}).

(** A library call, run on the heap of the program. *)
Definition lib {A} (m : M memory A) : M state A := zoom mem with_mem m.

(** [*p] for a pointer to an option value. *)
Definition deref_opt (p : state → option Option) : M state Option :=
  λ s, match p s with
       | Some o => (Done o, s)
       | None => (Panic "invalid memory address or nil pointer dereference", s)
       end.

Definition PXEClient : list byte := list_byte_of_string "PXEClient".

(** The guard of line 182, without its negation:
    [len(req.ClassIdentifier()) == 32 &&
     strings.HasPrefix(req.ClassIdentifier(), "PXEClient")] *)
Definition isPXEClient (req : addr) : M state bool :=
  ci <- lib (ClassIdentifier req) ;;
  if length ci =? 32 then
    ci' <- lib (ClassIdentifier req) ;;
    ret (HasPrefix ci' PXEClient)
  else ret false.

Definition pxeHandler4 (req resp : addr) : M state (addr * bool) :=
  (* needs to be pxe request *)
  pxe <- isPXEClient req ;;
  if negb pxe then ret (resp, false) else
  (* req must have specific options *)
  cmi <- lib (GetOneOption req OptionClientMachineIdentifier) ;;
  if negb (length cmi =? 17) then ret (resp, false) else
  (* resp.Options.Update( *opt60 ) *)
  (r <- lib (deref resp) ;;
   o <- deref_opt opt60 ;;
   lib (Options_Update (Options r) o)) ;;
  (* resp.UpdateOption(dhcpv4.OptGeneric(dhcpv4.OptionClientMachineIdentifier, cmi)) *)
  lib (UpdateOption resp (OptGeneric OptionClientMachineIdentifier cmi)) ;;
  (* resp.UpdateOption( *opt43 ) *)
  (o <- deref_opt opt43 ;;
   lib (UpdateOption resp o)) ;;
  log "Added PXE options to request" ;;
  ret (resp, false).

(** [handler.Handler4] *)
Definition Handler4 : Type := addr → addr → M state (addr * bool).

(** Go's [error]; nil is [None]. *)
Definition error : Type := option string.

Definition setup4 (args : list string) : M state (Handler4 * error) :=
  let oci := OptClassIdentifier PXEClient in
  set_opt60 (Some oci) ;;
  let pxe_opt6 := [x06; x01; x08] in  (* PXE_DISCOVERY *)
  let pxe_opt255 := [xff] in          (* PXE_END *)
  let ovsi := OptGeneric OptionVendorSpecificInformation (pxe_opt6 ++ pxe_opt255) in
  set_opt43 (Some ovsi) ;;
  log "loaded PXE plugin for DHCPv4." ;;
  ret (pxeHandler4, None).

(** ** The TLV codec of the spec *)

Module TLV.

Definition entry : Type := byte * list byte.

(** Modelled from the spec: the terminator entry of the TLV codec, "an
    entry with code 255 and zero-length payload". *)
Definition terminator : entry := (xff, []).

(** The one byte that holds a length; the spec gives encoding a meaning
    for payloads of at most 255 bytes only, beyond that the byte wraps. *)
Definition length_byte (n : nat) : byte :=
  default x00 (Byte.of_nat (n mod 256)).

(** Modelled from the spec: the encoder of the TLV codec, which the
    sources do not have.  "Encoding writes each entry as code(1 byte) |
    length(1 byte) | payload(length bytes), in input order; a terminator
    entry is ... written as a single byte." *)
Definition encode_entry (e : entry) : list byte :=
  if decide (e = terminator) then [xff]
  else e.1 :: length_byte (length e.2) :: e.2.

Definition encode (es : list entry) : list byte :=
  concat (encode_entry <$> es).

Inductive decoded : Type :=
| Entries (es : list entry)
| MalformedTLV.

Definition and_then (e : entry) (d : decoded) : decoded :=
  match d with
  | Entries es => Entries (e :: es)
  | MalformedTLV => MalformedTLV
  end.

(** Modelled from the spec: the decoder of the TLV codec, which the
    sources do not have.  It "fails with MalformedTLV if a length byte
    would read past the end of the buffer", stops at a terminator
    ("terminator code seen before buffer end is not an error") and does
    "not require a terminator to be present".  Each entry takes at least
    one byte, so the length of the buffer is fuel enough. *)
Fixpoint decode_from (fuel : nat) (buf : list byte) : decoded :=
  match fuel with
  | 0 => Entries []
  | S fuel =>
      match buf with
      | [] => Entries []
      | c :: rest =>
          if decide (c = xff) then Entries [terminator]
          else match rest with
               | [] => MalformedTLV
               | n :: value =>
                   let n := Byte.to_nat n in
                   if length value <? n then MalformedTLV
                   else and_then (c, take n value) (decode_from fuel (drop n value))
               end
      end
  end.

Definition decode (buf : list byte) : decoded :=
  decode_from (length buf) buf.

(** The sequences the round trip is about: payloads of at most 255
    bytes, and code 255 only as a terminator in the last place. *)
Fixpoint well_formed (es : list entry) : bool :=
  match es with
  | [] => true
  | (c, p) :: es' =>
      if decide (c = xff) then bool_decide (p = [] ∧ es' = [])
      else (length p <=? 255) && well_formed es'
  end.

(** Entries that do not end the sequence. *)
Definition open (es : list entry) : Prop :=
  Forall (λ e : entry, e.1 ≠ xff ∧ length e.2 ≤ 255) es.

(** The bytes that follow a code announce more than there is: the
    length byte is missing, or it counts more bytes than are left. *)
Definition overrun (tail : list byte) : Prop :=
  match tail with
  | [] => True
  | n :: value => length value < Byte.to_nat n
  end.

(** A buffer in which, after some complete entries and no terminator,
    a length byte would read past the end. *)
Definition reads_past_end (buf : list byte) : Prop :=
  ∃ es c tail, open es ∧ c ≠ xff ∧ overrun tail ∧ buf = encode es ++ c :: tail.

End TLV.

(** ** Reading the state *)

(** The option set of the message at [d]: what [GetOneOption] reads. *)
Definition options_of (μ : memory) (d : addr) : gmap byte (list byte) :=
  match msgs μ !! d with
  | Some {| Options := Some r |} => map_at μ r
  | _ => ∅
  end.

Definition opts (s : state) (d : addr) : gmap byte (list byte) :=
  options_of (mem s) d.

(** The value Go reads for a code: the zero value when the code is absent. *)
Definition payload (s : state) (d : addr) (code : OptionCode) : list byte :=
  default [] (opts s d !! code).

Definition classify (v : list byte) : bool :=
  (length v =? 32) && HasPrefix v PXEClient.

(** ** The paths through the handler *)

(** [o[opt.Code.Code()] = opt.Value.ToBytes()] on the map [r]. *)
Definition put_option (r : mref) (opt : Option) (μ : memory) : memory :=
  store_map r (<[Code opt := ToBytes (Value opt)]> (map_at μ r)) μ.

Definition log_line (line : string) (s : state) : state :=
  {| opt43 := opt43 s; opt60 := opt60 s; mem := mem s; logged := logged s ++ [line] |}.

(** Both guards of the handler let the request through. *)
Definition qualifies (s : state) (req : addr) : bool :=
  classify (payload s req OptionClassIdentifier)
  && (length (payload s req OptionClientMachineIdentifier) =? 17).

(** Every run of the handler is one of these seven. *)
Inductive handled (req resp : addr) (s : state) : outcome (addr * bool) * state → Prop :=
| handled_nil_req w :
    msgs (mem s) !! req = None →
    handled req resp s (Panic w, s)
| handled_skip m :
    msgs (mem s) !! req = Some m →
    qualifies s req = false →
    handled req resp s (Done (resp, false), s)
| handled_nil_resp m w :
    msgs (mem s) !! req = Some m →
    qualifies s req = true →
    msgs (mem s) !! resp = None →
    handled req resp s (Panic w, s)
| handled_nil_opt60 m m' w :
    msgs (mem s) !! req = Some m →
    qualifies s req = true →
    msgs (mem s) !! resp = Some m' →
    opt60 s = None →
    handled req resp s (Panic w, s)
| handled_nil_map m t60 w :
    msgs (mem s) !! req = Some m →
    qualifies s req = true →
    msgs (mem s) !! resp = Some {| Options := None |} →
    opt60 s = Some t60 →
    handled req resp s (Panic w, s)
| handled_nil_opt43 m r t60 w :
    msgs (mem s) !! req = Some m →
    qualifies s req = true →
    msgs (mem s) !! resp = Some {| Options := Some r |} →
    opt60 s = Some t60 →
    opt43 s = None →
    handled req resp s
      (Panic w,
       with_mem
         (put_option r
            (OptGeneric OptionClientMachineIdentifier
               (payload s req OptionClientMachineIdentifier))
            (put_option r t60 (mem s))) s)
| handled_augment m r t60 t43 :
    msgs (mem s) !! req = Some m →
    qualifies s req = true →
    msgs (mem s) !! resp = Some {| Options := Some r |} →
    opt60 s = Some t60 →
    opt43 s = Some t43 →
    handled req resp s
      (Done (resp, false),
       log_line "Added PXE options to request"
         (with_mem
            (put_option r t43
               (put_option r
                  (OptGeneric OptionClientMachineIdentifier
                     (payload s req OptionClientMachineIdentifier))
                  (put_option r t60 (mem s)))) s)).

(** ** The vocabulary of the claims *)

(** The templates are built: the state [setup4] leaves behind. *)
Definition Ready (s : state) : Prop :=
  opt60 s = Some (OptClassIdentifier PXEClient) ∧
  opt43 s = Some (OptGeneric OptionVendorSpecificInformation [x06; x01; x08; xff]).

(** [d] points to a message. *)
Definition is_message (s : state) (d : addr) : Prop :=
  is_Some (msgs (mem s) !! d).

(** [d] points to a message whose option map is allocated. *)
Definition has_options (s : state) (d : addr) : Prop :=
  ∃ r, msgs (mem s) !! d = Some {| Options := Some r |}.

(** The two messages hold the same map. *)
Definition shares_map (s : state) (d1 d2 : addr) : Prop :=
  ∃ r, msgs (mem s) !! d1 = Some {| Options := Some r |}
       ∧ msgs (mem s) !! d2 = Some {| Options := Some r |}.

(** Option 60 is there, 32 bytes long, and starts with "PXEClient". *)
Definition pxe_class (s : state) (req : addr) : Prop :=
  ∃ v, opts s req !! OptionClassIdentifier = Some v
       ∧ length v = 32 ∧ PXEClient `prefix_of` v.

(** Option 97 is there with the 17 bytes [cmi]. *)
Definition machine_id (s : state) (req : addr) (cmi : list byte) : Prop :=
  opts s req !! OptionClientMachineIdentifier = Some cmi ∧ length cmi = 17.

(** Modelled from the spec: how the dispatcher of package handler, which is
    not among the sources, reads the boolean a [Handler4] returns.  The
    handler "signals continueChain" unless it "terminates the handler
    chain"; the boolean returned in Go is the request to stop. *)
Definition continueChain (stop : bool) : bool := negb stop.

(** The option set a qualifying request leaves in the response. *)
Definition augmented (cmi : list byte) (o : gmap byte (list byte)) : gmap byte (list byte) :=
  <[OptionVendorSpecificInformation := [x06; x01; x08; xff]]>
    (<[OptionClientMachineIdentifier := cmi]>
       (<[OptionClassIdentifier := PXEClient]> o)).

(** ** A boot request and the reply under construction *)

Definition vci32 : list byte :=
  list_byte_of_string "PXEClient:Arch:00000:UNDI:002001".

Definition uuid17 : list byte := x00 :: repeat xa5 16.

(** Message 1 is a PXE boot request, message 2 the reply built so far (it
    carries the message type, option 53), message 3 a request whose class
    identifier is too short. *)
Definition boot_req : addr := 1%positive.
Definition reply : addr := 2%positive.
Definition short_req : addr := 3%positive.

Definition boot_mem : memory :=
  {| msgs := {[ boot_req := {| Options := Some 1%positive |};
                reply := {| Options := Some 2%positive |};
                short_req := {| Options := Some 3%positive |} ]};
     maps := {[ 1%positive := {[ OptionClassIdentifier := vci32;
                                 OptionClientMachineIdentifier := uuid17 ]};
                2%positive := {[ x35 := [x02] ]};
                3%positive := {[ OptionClassIdentifier := PXEClient;
                                 OptionClientMachineIdentifier := uuid17 ]} ]} |}.

Definition idle : state :=
  {| opt43 := None; opt60 := None; mem := boot_mem; logged := [] |}.

Definition booted : state := (setup4 [] idle).2.

(** ** Sequences of invocations *)

(** One invocation of a function of the package: [setup4] with any
    arguments, or the handler on any request and response.  The package
    variables are unexported, so nothing else assigns them. *)
Inductive step : state → state → Prop :=
| step_setup args s :
    step s (setup4 args s).2
| step_handle req resp s :
    step s (pxeHandler4 req resp s).2.

(** ** The plugin as the server sees it *)

(** [plugins.Plugin]: the name under which the plugin is configured and
    its setup function for DHCPv4.  The plugin leaves [Setup6] nil; that
    field is left out. *)
Record plugins_Plugin : Type := {
  Name : string;
  Setup4 : list string → M state (Handler4 * error)
}.

(** Plugin wraps plugin registration information *)
Definition Plugin : plugins_Plugin :=
  {| Name := "pxe"; Setup4 := setup4 |}.

(** ** The state a run leaves *)

(** What a run of the handler makes of a state in which both templates
    are built: nothing unless the request passes both guards and the
    response has a map, else the three options written and one line
    logged. *)
Definition after (s : state) (req resp : addr) : state :=
  if qualifies s req then
    match msgs (mem s) !! resp with
    | Some {| Options := Some r |} =>
        log_line "Added PXE options to request"
          (with_mem
             (store_map r
                (augmented (payload s req OptionClientMachineIdentifier)
                   (map_at (mem s) r)) (mem s)) s)
    | _ => s
    end
  else s.

(** ** More messages *)

Definition uuid17' : list byte := x00 :: repeat x5a 16.

(** Message 4 has no option map (its [Options] is nil), message 5 is a
    second reply, message 6 a second boot request, from another machine. *)
Definition bare : addr := 4%positive.
Definition reply2 : addr := 5%positive.
Definition boot_req2 : addr := 6%positive.

Definition wide_mem : memory :=
  {| msgs := <[bare := {| Options := None |}]>
               (<[reply2 := {| Options := Some 5%positive |}]>
                  (<[boot_req2 := {| Options := Some 6%positive |}]> (msgs boot_mem)));
     maps := <[5%positive := {[ x35 := [x05] ]}]>
               (<[6%positive := {[ OptionClassIdentifier := vci32;
                                   OptionClientMachineIdentifier := uuid17' ]}]>
                  (maps boot_mem)) |}.

Definition wide : state := with_mem wide_mem booted.

(** * Lemmas and theorems *)

(** ** Running the library calls *)

Lemma with_mem_mem s : with_mem (mem s) s = s.
Proof. by destruct s. Qed.

Lemma GetOneOption_run μ d m code :
  msgs μ !! d = Some m →
  GetOneOption d code μ = (Done (default [] (options_of μ d !! code)), μ).
Proof.
  intros Hd. unfold GetOneOption, bind, deref, options_of. rewrite Hd.
  destruct m as [[r|]]; simpl; [done|]. by rewrite lookup_empty.
Qed.

Lemma ClassIdentifier_run μ d m :
  msgs μ !! d = Some m →
  ClassIdentifier d μ
  = (Done (default [] (options_of μ d !! OptionClassIdentifier)), μ).
Proof.
  intros Hd. rewrite <- (GetOneOption_run _ _ _ _ Hd).
  unfold ClassIdentifier, GetOneOption, GetString, bind, deref. rewrite Hd.
  destruct (Options_Get (Options m) OptionClassIdentifier μ) as [[[|b v]|w] μ']; done.
Qed.

Lemma deref_nil μ d : msgs μ !! d = None → ∃ w, deref d μ = (Panic w, μ).
Proof. intros Hd. unfold deref. rewrite Hd. eauto. Qed.

Lemma isPXEClient_run s req m :
  msgs (mem s) !! req = Some m →
  isPXEClient req s = (Done (classify (payload s req OptionClassIdentifier)), s).
Proof.
  intros Hd. unfold isPXEClient, bind, lib, zoom.
  rewrite (ClassIdentifier_run _ _ _ Hd), with_mem_mem.
  unfold classify, payload, opts.
  destruct (_ =? 32); [|done].
  by rewrite (ClassIdentifier_run _ _ _ Hd), with_mem_mem.
Qed.

Lemma isPXEClient_nil s req :
  msgs (mem s) !! req = None → ∃ w, isPXEClient req s = (Panic w, s).
Proof.
  intros Hd. unfold isPXEClient, lib, zoom, ClassIdentifier, bind, deref.
  rewrite Hd. simpl. rewrite with_mem_mem. eauto.
Qed.

(** ** The handler follows one of its paths *)

Lemma UpdateOption_run μ d r opt :
  msgs μ !! d = Some {| Options := Some r |} →
  UpdateOption d opt μ = (Done tt, put_option r opt μ).
Proof. intros Hd. unfold UpdateOption, bind, deref. by rewrite Hd. Qed.

Lemma pxeHandler4_handled req resp s :
  handled req resp s (pxeHandler4 req resp s).
Proof.
  unfold pxeHandler4.
  destruct (msgs (mem s) !! req) as [m|] eqn:Hreq.
  2:{ destruct (isPXEClient_nil s req Hreq) as [w Hw].
      unfold bind at 1. rewrite Hw. by constructor. }
  unfold bind at 1. rewrite (isPXEClient_run _ _ _ Hreq).
  destruct (classify _) eqn:Hc; simpl.
  2:{ econstructor; [done|]. unfold qualifies. by rewrite Hc. }
  unfold bind at 1, lib at 1, zoom.
  rewrite (GetOneOption_run _ _ _ _ Hreq), with_mem_mem.
  fold (opts s req). fold (payload s req OptionClientMachineIdentifier).
  destruct (length _ =? 17) eqn:Hl; simpl.
  2:{ econstructor; [done|]. unfold qualifies. by rewrite Hc, Hl. }
  assert (qualifies s req = true) as Hq by (unfold qualifies; by rewrite Hc, Hl).
  unfold bind at 1. unfold bind at 1. unfold lib at 1, zoom, deref.
  destruct (msgs (mem s) !! resp) as [[o]|] eqn:Hresp.
  2:{ simpl. rewrite with_mem_mem. eapply handled_nil_resp; eauto. }
  simpl. rewrite with_mem_mem.
  unfold bind at 1, deref_opt at 1.
  destruct (opt60 s) as [t60|] eqn:H60.
  2:{ eapply handled_nil_opt60; eauto. }
  destruct o as [r|]; unfold lib at 1, zoom; simpl.
  2:{ rewrite with_mem_mem. eapply handled_nil_map; eauto. }
  fold (put_option r t60 (mem s)).
  set (s1 := with_mem (put_option r t60 (mem s)) s).
  assert (msgs (mem s1) !! resp = Some {| Options := Some r |}) as Hresp1 by done.
  unfold bind at 1, lib at 1, zoom.
  rewrite (UpdateOption_run _ _ _ _ Hresp1). simpl.
  set (cmi := payload s req OptionClientMachineIdentifier).
  set (μ2 := put_option r (OptGeneric OptionClientMachineIdentifier cmi) _).
  unfold bind at 1. unfold bind at 1. unfold deref_opt at 1. simpl.
  destruct (opt43 s) as [t43|] eqn:H43.
  2:{ exact (handled_nil_opt43 _ _ _ m r t60 _ Hreq Hq Hresp H60 H43). }
  unfold lib at 1, zoom.
  assert (msgs (mem (with_mem μ2 s1)) !! resp = Some {| Options := Some r |})
    as Hresp2 by done.
  rewrite (UpdateOption_run _ _ _ _ Hresp2). simpl.
  exact (handled_augment _ _ _ m r t60 t43 Hreq Hq Hresp H60 H43).
Qed.

Lemma pxeHandler4_skip req resp s m :
  msgs (mem s) !! req = Some m →
  qualifies s req = false →
  pxeHandler4 req resp s = (Done (resp, false), s).
Proof.
  intros Hreq Hq.
  pose proof (pxeHandler4_handled req resp s) as H.
  inversion H; congruence.
Qed.

Lemma pxeHandler4_augment req resp s m r t60 t43 :
  msgs (mem s) !! req = Some m →
  qualifies s req = true →
  msgs (mem s) !! resp = Some {| Options := Some r |} →
  opt60 s = Some t60 →
  opt43 s = Some t43 →
  pxeHandler4 req resp s
  = (Done (resp, false),
     log_line "Added PXE options to request"
       (with_mem
          (put_option r t43
             (put_option r
                (OptGeneric OptionClientMachineIdentifier
                   (payload s req OptionClientMachineIdentifier))
                (put_option r t60 (mem s)))) s)).
Proof.
  intros Hreq Hq Hresp H60 H43.
  pose proof (pxeHandler4_handled req resp s) as H.
  inversion H; congruence.
Qed.

(** ** Facts about the heap *)

Lemma map_at_store_map μ r o : map_at (store_map r o μ) r = o.
Proof. unfold map_at, store_map. simpl. by rewrite lookup_insert_eq. Qed.

Lemma map_at_store_map_ne μ r r' o :
  r ≠ r' → map_at (store_map r o μ) r' = map_at μ r'.
Proof. intros Hne. unfold map_at, store_map. simpl. by rewrite lookup_insert_ne. Qed.

Lemma store_map_store_map μ r o o' :
  store_map r o' (store_map r o μ) = store_map r o' μ.
Proof. unfold store_map. simpl. by rewrite insert_insert_eq. Qed.

Lemma options_of_store_map μ d r o :
  msgs μ !! d = Some {| Options := Some r |} →
  options_of (store_map r o μ) d = o.
Proof.
  intros Hd. unfold options_of. simpl. rewrite Hd. apply map_at_store_map.
Qed.

(** Writing to a map leaves the messages that hold another map alone. *)
Lemma options_of_store_map_ne μ d r o :
  (∀ m, msgs μ !! d = Some m → Options m ≠ Some r) →
  options_of (store_map r o μ) d = options_of μ d.
Proof.
  intros Hd. unfold options_of. simpl.
  destruct (msgs μ !! d) as [[[r'|]]|] eqn:E; try done.
  apply map_at_store_map_ne. intros ->. by eapply Hd.
Qed.

(** ** The guards *)

Lemma HasPrefix_true s p : HasPrefix s p = true ↔ p `prefix_of` s.
Proof.
  unfold HasPrefix. rewrite andb_true_iff, Nat.leb_le, bool_decide_eq_true.
  split.
  - intros [_ Ht]. exists (drop (length p) s).
    transitivity (take (length p) s ++ drop (length p) s);
      [by rewrite take_drop | by rewrite Ht].
  - intros [k ->]. rewrite length_app, take_app_length. split; [lia|done].
Qed.

Lemma classify_true v :
  classify v = true ↔ length v = 32 ∧ PXEClient `prefix_of` v.
Proof.
  unfold classify. by rewrite andb_true_iff, Nat.eqb_eq, HasPrefix_true.
Qed.

Lemma classify_payload s req :
  classify (payload s req OptionClassIdentifier) = true ↔ pxe_class s req.
Proof.
  rewrite classify_true. unfold payload, pxe_class. split.
  - destruct (opts s req !! OptionClassIdentifier) as [v|]; simpl.
    + intros [??]. eauto.
    + intros [? _]. done.
  - intros (v & -> & ? & ?). done.
Qed.

Lemma length_payload s req :
  (length (payload s req OptionClientMachineIdentifier) =? 17) = true
  ↔ ∃ cmi, machine_id s req cmi.
Proof.
  rewrite Nat.eqb_eq. unfold payload, machine_id. split.
  - destruct (opts s req !! OptionClientMachineIdentifier) as [v|]; simpl.
    + eauto.
    + done.
  - intros (v & -> & ?). done.
Qed.

Lemma qualifies_true s req :
  qualifies s req = true ↔ pxe_class s req ∧ ∃ cmi, machine_id s req cmi.
Proof.
  unfold qualifies. by rewrite andb_true_iff, classify_payload, length_payload.
Qed.

Lemma machine_id_payload s req cmi :
  machine_id s req cmi → payload s req OptionClientMachineIdentifier = cmi.
Proof. intros [H _]. unfold payload. by rewrite H. Qed.

Lemma pxe_class_is_message s req : pxe_class s req → is_message s req.
Proof.
  intros (v & Hv & _). unfold is_message, opts, options_of in *.
  destruct (msgs (mem s) !! req); [eauto|]. by rewrite lookup_empty in Hv.
Qed.

(** ** The options written *)

Lemma put_three μ r cmi :
  put_option r (OptGeneric OptionVendorSpecificInformation [x06; x01; x08; xff])
    (put_option r (OptGeneric OptionClientMachineIdentifier cmi)
       (put_option r (OptClassIdentifier PXEClient) μ))
  = store_map r (augmented cmi (map_at μ r)) μ.
Proof.
  unfold put_option. simpl.
  by rewrite !map_at_store_map, !store_map_store_map.
Qed.

Lemma augmented_augmented cmi o : augmented cmi (augmented cmi o) = augmented cmi o.
Proof.
  unfold augmented. apply map_eq. intros c.
  rewrite !lookup_insert. by repeat case_decide.
Qed.

(** What a run in a ready state does to the heap. *)
Lemma pxeHandler4_effect req resp s :
  Ready s →
  (∃ o, pxeHandler4 req resp s = (o, s))
  ∨ (∃ r, qualifies s req = true
          ∧ msgs (mem s) !! resp = Some {| Options := Some r |}
          ∧ pxeHandler4 req resp s
            = (Done (resp, false),
               log_line "Added PXE options to request"
                 (with_mem
                    (store_map r
                       (augmented (payload s req OptionClientMachineIdentifier)
                          (map_at (mem s) r)) (mem s)) s))).
Proof.
  intros [H60 H43].
  pose proof (pxeHandler4_handled req resp s) as H.
  inversion H; try (left; eauto; fail); try congruence.
  right. exists r. split_and!; [done..|].
  assert (t60 = OptClassIdentifier PXEClient) as -> by congruence.
  assert (t43 = OptGeneric OptionVendorSpecificInformation [x06; x01; x08; xff])
    as -> by congruence.
  by rewrite put_three.
Qed.

(** ** Setup and the templates *)

Lemma setup4_run args s :
  setup4 args s
  = (Done (pxeHandler4, None),
     {| opt43 := Some (OptGeneric OptionVendorSpecificInformation [x06; x01; x08; xff]);
        opt60 := Some (OptClassIdentifier PXEClient);
        mem := mem s;
        logged := logged s ++ ["loaded PXE plugin for DHCPv4."] |}).
Proof. reflexivity. Qed.

Lemma setup4_Ready args s : Ready (setup4 args s).2.
Proof. by split. Qed.

Lemma pxeHandler4_templates req resp s :
  opt60 (pxeHandler4 req resp s).2 = opt60 s
  ∧ opt43 (pxeHandler4 req resp s).2 = opt43 s.
Proof.
  pose proof (pxeHandler4_handled req resp s) as H.
  inversion H; done.
Qed.

Lemma pxeHandler4_Ready req resp s : Ready s → Ready (pxeHandler4 req resp s).2.
Proof.
  unfold Ready. destruct (pxeHandler4_templates req resp s) as [-> ->]. done.
Qed.

Lemma step_Ready s s' : step s s' → Ready s → Ready s'.
Proof.
  destruct 1; intros Hs.
  - apply setup4_Ready.
  - by apply pxeHandler4_Ready.
Qed.

Lemma steps_Ready s s' : rtc step s s' → Ready s → Ready s'.
Proof.
  induction 1 as [|s1 s2 s3 Hstep _ IH]; [done|].
  intros Hs. apply IH. by eapply step_Ready.
Qed.

Lemma Ready_booted : Ready booted.
Proof. apply setup4_Ready. Qed.

Lemma pxe_class_booted : pxe_class booted boot_req.
Proof.
  exists vci32. split; [reflexivity|]. split; [reflexivity|].
  exists (drop 9 vci32). reflexivity.
Qed.

(** ** The handler in a ready state *)

(** The run on a request that passes both guards, in a ready state. *)
Lemma pxeHandler4_qualified s req resp cmi r :
  Ready s →
  pxe_class s req →
  machine_id s req cmi →
  msgs (mem s) !! resp = Some {| Options := Some r |} →
  pxeHandler4 req resp s
  = (Done (resp, false),
     log_line "Added PXE options to request"
       (with_mem (store_map r (augmented cmi (map_at (mem s) r)) (mem s)) s)).
Proof.
  intros [H60 H43] Hc Hm Hresp.
  destruct (pxe_class_is_message _ _ Hc) as [m Hreq].
  assert (qualifies s req = true) as Hq by (apply qualifies_true; eauto).
  rewrite (pxeHandler4_augment _ _ _ _ _ _ _ Hreq Hq Hresp H60 H43).
  by rewrite put_three, (machine_id_payload _ _ _ Hm).
Qed.

Lemma opts_after_augment s resp cmi r :
  msgs (mem s) !! resp = Some {| Options := Some r |} →
  opts (log_line "Added PXE options to request"
          (with_mem (store_map r (augmented cmi (map_at (mem s) r)) (mem s)) s))
       resp
  = augmented cmi (opts s resp).
Proof.
  intros Hresp. unfold opts. simpl.
  rewrite (options_of_store_map _ _ _ _ Hresp).
  unfold options_of. by rewrite Hresp.
Qed.

(** In a ready state the handler returns for every pair of messages. *)
Lemma pxeHandler4_returns s req resp :
  Ready s →
  is_message s req →
  has_options s resp →
  (pxeHandler4 req resp s).1 = Done (resp, false).
Proof.
  intros [H60 H43] [m Hreq] [r Hresp].
  pose proof (pxeHandler4_handled req resp s) as H.
  inversion H; solve [done | congruence].
Qed.

(** C1, as the code has it.  In a ready state, for a request whose option 60
    is 32 bytes starting with "PXEClient" and whose option 97 is 17 bytes,
    and a response with an allocated option map, the handler returns the
    response with the flag false (it does not stop the chain; no flag tells
    of a match) and the response holds option 60 = "PXEClient", option 97 =
    the 17 bytes of the request and option 43 = 06 01 08 FF. *)
Theorem pxeHandler4_augments s req resp cmi :
  Ready s →
  pxe_class s req →
  machine_id s req cmi →
  has_options s resp →
  ∃ s', pxeHandler4 req resp s = (Done (resp, false), s')
        ∧ opts s' resp !! OptionClassIdentifier = Some PXEClient
        ∧ opts s' resp !! OptionClientMachineIdentifier = Some cmi
        ∧ opts s' resp !! OptionVendorSpecificInformation
          = Some [x06; x01; x08; xff].
Proof.
  intros Hs Hc Hm [r Hresp]. eexists. split.
  { apply (pxeHandler4_qualified _ _ _ _ _ Hs Hc Hm Hresp). }
  rewrite (opts_after_augment _ _ _ _ Hresp). unfold augmented.
  split_and!.
  - by rewrite lookup_insert_ne, lookup_insert_ne, lookup_insert_eq.
  - by rewrite lookup_insert_ne, lookup_insert_eq.
  - by rewrite lookup_insert_eq.
Qed.

Lemma pxeHandler4_augments_witness :
  ∃ s', pxeHandler4 boot_req reply booted = (Done (reply, false), s')
        ∧ opts s' reply !! OptionClassIdentifier = Some PXEClient
        ∧ opts s' reply !! OptionClientMachineIdentifier = Some uuid17
        ∧ opts s' reply !! OptionVendorSpecificInformation
          = Some [x06; x01; x08; xff].
Proof.
  apply (pxeHandler4_augments booted boot_req reply uuid17).
  - split; reflexivity.
  - exists vci32. split; [reflexivity|]. split; [reflexivity|].
    exists (drop 9 vci32). reflexivity.
  - split; reflexivity.
  - exists 2%positive. reflexivity.
Defined.

(** C1 as stated fails: on the boot request the flag returned is false. *)
Lemma pxeHandler4_flag_false_on_match :
  Ready booted ∧ pxe_class booted boot_req
  ∧ machine_id booted boot_req uuid17 ∧ has_options booted reply
  ∧ (pxeHandler4 boot_req reply booted).1 = Done (reply, false)
  ∧ ¬ ∃ s', pxeHandler4 boot_req reply booted = (Done (reply, true), s').
Proof.
  assert ((pxeHandler4 boot_req reply booted).1 = Done (reply, false)) as Hrun
    by (vm_compute; reflexivity).
  split_and!.
  - apply Ready_booted.
  - apply pxe_class_booted.
  - split; reflexivity.
  - exists 2%positive. reflexivity.
  - exact Hrun.
  - intros [s' H]. rewrite H in Hrun. discriminate.
Qed.

(** C2.  On every message the classifier returns, without failing and
    without changing the state, and it returns true exactly when option 60
    is present with a payload of 32 bytes that starts with "PXEClient". *)
Theorem isPXEClient_iff s req :
  is_message s req →
  ∃ b, isPXEClient req s = (Done b, s) ∧ (b = true ↔ pxe_class s req).
Proof.
  intros [m Hreq]. eexists. split.
  - apply (isPXEClient_run _ _ _ Hreq).
  - apply classify_payload.
Qed.

Lemma isPXEClient_iff_witness :
  ∃ b, isPXEClient short_req booted = (Done b, booted)
       ∧ (b = true ↔ pxe_class booted short_req).
Proof.
  apply (isPXEClient_iff booted short_req).
  exists {| Options := Some 3%positive |}. reflexivity.
Defined.

(** C3.  When option 60 is absent or not PXE-shaped, or is PXE-shaped while
    option 97 is absent or not 17 bytes long, the handler returns the
    response with the flag false, without a panic, and the state (so the
    response too) is what it was. *)
Theorem pxeHandler4_declines s req resp :
  is_message s req →
  ¬ pxe_class s req ∨ (pxe_class s req ∧ ¬ ∃ cmi, machine_id s req cmi) →
  pxeHandler4 req resp s = (Done (resp, false), s).
Proof.
  intros [m Hreq] Hno. apply (pxeHandler4_skip _ _ _ _ Hreq).
  apply not_true_is_false. rewrite qualifies_true. tauto.
Qed.

Lemma pxeHandler4_declines_witness :
  pxeHandler4 short_req reply booted = (Done (reply, false), booted).
Proof.
  apply (pxeHandler4_declines booted short_req reply).
  - exists {| Options := Some 3%positive |}. reflexivity.
  - left. intros (v & Hv & Hl & _).
    vm_compute in Hv. injection Hv as <-. discriminate Hl.
Defined.

(** C4.  In a ready state the handler removes no option of the response,
    and an option with a code other than 60, 43 and 97 keeps its payload. *)
Theorem pxeHandler4_frame s req resp c :
  Ready s →
  (is_Some (opts s resp !! c) → is_Some (opts (pxeHandler4 req resp s).2 resp !! c))
  ∧ (c ≠ OptionClassIdentifier →
     c ≠ OptionVendorSpecificInformation →
     c ≠ OptionClientMachineIdentifier →
     opts (pxeHandler4 req resp s).2 resp !! c = opts s resp !! c).
Proof.
  intros Hs.
  destruct (pxeHandler4_effect req resp s Hs) as [[o ->]|(r & _ & Hresp & ->)];
    [done|].
  unfold opts. simpl. rewrite (options_of_store_map _ _ _ _ Hresp).
  replace (map_at (mem s) r) with (options_of (mem s) resp)
    by (unfold options_of; by rewrite Hresp).
  unfold augmented. split.
  - intros Hc. rewrite !lookup_insert. by repeat case_decide.
  - intros. by rewrite !lookup_insert_ne.
Qed.

Lemma pxeHandler4_frame_witness :
  (is_Some (opts booted reply !! x35) →
   is_Some (opts (pxeHandler4 boot_req reply booted).2 reply !! x35))
  ∧ (x35 ≠ OptionClassIdentifier →
     x35 ≠ OptionVendorSpecificInformation →
     x35 ≠ OptionClientMachineIdentifier →
     opts (pxeHandler4 boot_req reply booted).2 reply !! x35
     = opts booted reply !! x35).
Proof.
  apply (pxeHandler4_frame booted boot_req reply x35).
  split; reflexivity.
Defined.

Lemma payload_after_augment s req r cmi :
  let s1 := log_line "Added PXE options to request"
              (with_mem (store_map r (augmented cmi (map_at (mem s) r)) (mem s)) s) in
  payload s req OptionClientMachineIdentifier = cmi →
  payload s1 req OptionClientMachineIdentifier = cmi.
Proof.
  intros s1 Hcmi. unfold payload, opts in *. subst s1. simpl.
  destruct (msgs (mem s) !! req) as [[o]|] eqn:Hreq.
  - destruct (decide (o = Some r)) as [->|Hr].
    + rewrite (options_of_store_map _ _ _ _ Hreq). unfold augmented.
      by rewrite lookup_insert_ne, lookup_insert_eq.
    + rewrite options_of_store_map_ne; [done|].
      intros m Hm Ho. rewrite Hreq in Hm. injection Hm as <-. done.
  - rewrite options_of_store_map_ne; [done|]. intros m Hm. congruence.
Qed.

(** C5.  In a ready state a second run of the handler with the same request
    and response returns what the first returned and leaves the heap, and
    so the option set of the response, as the first run left it. *)
Theorem pxeHandler4_idempotent s req resp :
  Ready s →
  let once := pxeHandler4 req resp s in
  let twice := pxeHandler4 req resp once.2 in
  twice.1 = once.1
  ∧ mem twice.2 = mem once.2
  ∧ opts twice.2 resp = opts once.2 resp.
Proof.
  intros Hs once twice. subst once twice.
  destruct (pxeHandler4_effect req resp s Hs) as [[o Ho]|(r & Hq & Hresp & ->)].
  { rewrite Ho. simpl. by rewrite Ho. }
  simpl. set (cmi := payload s req OptionClientMachineIdentifier).
  set (s1 := log_line _ _).
  assert (Ready s1) as Hs1 by exact Hs.
  assert (is_message s1 req) as Hreq1.
  { apply qualifies_true in Hq as [Hc _].
    by apply pxe_class_is_message in Hc. }
  assert (has_options s1 resp) as Hresp1 by (by exists r).
  split; [by apply pxeHandler4_returns|].
  assert (mem (pxeHandler4 req resp s1).2 = mem s1) as Hmem.
  { destruct (pxeHandler4_effect req resp s1 Hs1)
      as [[o ->]|(r' & _ & Hresp' & ->)]; [done|].
    assert (r' = r) as -> by (simpl in Hresp'; congruence).
    pose proof (payload_after_augment s req r cmi eq_refl) as Hp.
    change (payload s1 req OptionClientMachineIdentifier = cmi) in Hp.
    rewrite Hp. simpl. rewrite map_at_store_map, augmented_augmented.
    apply store_map_store_map. }
  split; [done|]. unfold opts. by rewrite Hmem.
Qed.

Lemma pxeHandler4_idempotent_witness :
  let once := pxeHandler4 boot_req reply booted in
  let twice := pxeHandler4 boot_req reply once.2 in
  twice.1 = once.1
  ∧ mem twice.2 = mem once.2
  ∧ opts twice.2 reply = opts once.2 reply.
Proof.
  apply (pxeHandler4_idempotent booted boot_req reply).
  split; reflexivity.
Defined.

(** C6.  In a ready state, for every request and every response with an
    allocated option map, the handler returns a flag that lets the chain
    continue, whether it added the options or not. *)
Theorem pxeHandler4_continues s req resp :
  Ready s →
  is_message s req →
  has_options s resp →
  ∃ stop s', pxeHandler4 req resp s = (Done (resp, stop), s')
             ∧ continueChain stop = true.
Proof.
  intros Hs Hreq Hresp.
  pose proof (pxeHandler4_returns s req resp Hs Hreq Hresp) as H.
  exists false, (pxeHandler4 req resp s).2. split; [|done].
  rewrite <- H. by destruct (pxeHandler4 req resp s).
Qed.

Lemma pxeHandler4_continues_witness :
  ∃ stop s', pxeHandler4 short_req reply booted = (Done (reply, stop), s')
             ∧ continueChain stop = true.
Proof.
  apply (pxeHandler4_continues booted short_req reply).
  - split; reflexivity.
  - exists {| Options := Some 3%positive |}. reflexivity.
  - exists 2%positive. reflexivity.
Defined.

(** C7.  After [setup4], across any sequence of invocations of the
    handler (and of [setup4] again), the two templates are the values
    [setup4] built; no invocation of the handler changes them; and every
    response the handler augments receives their bytes. *)
Theorem templates_fixed args s0 s :
  rtc step (setup4 args s0).2 s →
  opt60 s = Some (OptClassIdentifier PXEClient)
  ∧ opt43 s = Some (OptGeneric OptionVendorSpecificInformation [x06; x01; x08; xff])
  ∧ (∀ req resp,
       opt60 (pxeHandler4 req resp s).2 = opt60 s
       ∧ opt43 (pxeHandler4 req resp s).2 = opt43 s)
  ∧ (∀ req resp cmi,
       pxe_class s req → machine_id s req cmi → has_options s resp →
       opts (pxeHandler4 req resp s).2 resp !! OptionClassIdentifier
       = Some (ToBytes (Value (OptClassIdentifier PXEClient)))
       ∧ opts (pxeHandler4 req resp s).2 resp !! OptionVendorSpecificInformation
         = Some (ToBytes (Value (OptGeneric OptionVendorSpecificInformation
                                   [x06; x01; x08; xff])))).
Proof.
  intros Hrun.
  assert (Ready s) as Hs.
  { apply (steps_Ready _ _ Hrun), setup4_Ready. }
  clear Hrun. destruct (Hs) as [H60 H43]. split_and!; [done..| |].
  - intros. apply pxeHandler4_templates.
  - intros req resp cmi Hc Hm [r Hresp].
    rewrite (pxeHandler4_qualified _ _ _ _ _ Hs Hc Hm Hresp). simpl.
    rewrite (opts_after_augment _ _ _ _ Hresp). unfold augmented. split.
    + by rewrite lookup_insert_ne, lookup_insert_ne, lookup_insert_eq.
    + by rewrite lookup_insert_eq.
Qed.

Lemma templates_fixed_witness :
  let s := (pxeHandler4 boot_req reply booted).2 in
  opt60 s = Some (OptClassIdentifier PXEClient)
  ∧ opt43 s = Some (OptGeneric OptionVendorSpecificInformation [x06; x01; x08; xff])
  ∧ (∀ req resp,
       opt60 (pxeHandler4 req resp s).2 = opt60 s
       ∧ opt43 (pxeHandler4 req resp s).2 = opt43 s)
  ∧ (∀ req resp cmi,
       pxe_class s req → machine_id s req cmi → has_options s resp →
       opts (pxeHandler4 req resp s).2 resp !! OptionClassIdentifier
       = Some (ToBytes (Value (OptClassIdentifier PXEClient)))
       ∧ opts (pxeHandler4 req resp s).2 resp !! OptionVendorSpecificInformation
         = Some (ToBytes (Value (OptGeneric OptionVendorSpecificInformation
                                   [x06; x01; x08; xff])))).
Proof.
  apply (templates_fixed [] idle (pxeHandler4 boot_req reply booted).2).
  apply rtc_once. apply (step_handle boot_req reply booted).
Defined.

(** C8.  For every argument list [setup4] returns the handler and a nil
    error; it never fails.  It leaves option 60 = "PXEClient" and option 43
    = 06 01 08 FF as the templates and does not touch the messages. *)
Theorem setup4_ok args s :
  ∃ s', setup4 args s = (Done (pxeHandler4, None), s')
        ∧ opt60 s' = Some (OptClassIdentifier PXEClient)
        ∧ opt43 s' = Some (OptGeneric OptionVendorSpecificInformation
                             [x06; x01; x08; xff])
        ∧ ToBytes (Value (OptClassIdentifier PXEClient))
          = list_byte_of_string "PXEClient"
        ∧ mem s' = mem s.
Proof. eexists. split; [apply setup4_run|]. done. Qed.

Lemma put_option_untouched μ d r opt :
  (∀ m, msgs μ !! d = Some m → Options m ≠ Some r) →
  options_of (put_option r opt μ) d = options_of μ d.
Proof. apply options_of_store_map_ne. Qed.

(** C10, as the code has it.  Whatever the run of the handler does
    (decline, augment, or panic), a request that does not share its
    option map with the response is the same message with the same
    options afterwards. *)
Theorem pxeHandler4_request_untouched s req resp :
  ¬ shares_map s req resp →
  msgs (mem (pxeHandler4 req resp s).2) !! req = msgs (mem s) !! req
  ∧ opts (pxeHandler4 req resp s).2 req = opts s req.
Proof.
  intros Hsep.
  pose proof (pxeHandler4_handled req resp s) as H.
  inversion H as [| | | | |m r t60 w Hreq Hq Hresp|m r t60 t43 Hreq Hq Hresp];
    try done.
  all: split; [done|].
  all: assert (∀ m', msgs (mem s) !! req = Some m' → Options m' ≠ Some r) as Hr
    by (intros [o] Hm Ho; simpl in Ho; subst o; apply Hsep; by exists r).
  all: unfold opts; simpl.
  all: by rewrite !put_option_untouched.
Qed.

Lemma pxeHandler4_request_untouched_witness :
  msgs (mem (pxeHandler4 boot_req reply booted).2) !! boot_req
  = msgs (mem booted) !! boot_req
  ∧ opts (pxeHandler4 boot_req reply booted).2 boot_req = opts booted boot_req.
Proof.
  apply (pxeHandler4_request_untouched booted boot_req reply).
  intros (r & Hreq & Hresp). vm_compute in Hreq, Hresp. congruence.
Defined.

(** C10 as stated fails: when the handler is given one message as both
    request and response, it returns, and the class identifier of the
    request, 32 bytes before, is the 9 bytes "PXEClient" afterwards. *)
Lemma pxeHandler4_same_message :
  (pxeHandler4 boot_req boot_req booted).1 = Done (boot_req, false)
  ∧ opts booted boot_req !! OptionClassIdentifier = Some vci32
  ∧ opts (pxeHandler4 boot_req boot_req booted).2 boot_req !! OptionClassIdentifier
    = Some PXEClient
  ∧ opts (pxeHandler4 boot_req boot_req booted).2 boot_req ≠ opts booted boot_req.
Proof.
  assert (opts (pxeHandler4 boot_req boot_req booted).2 boot_req
            !! OptionClassIdentifier = Some PXEClient) as Hafter
    by reflexivity.
  split_and!; [reflexivity|reflexivity|exact Hafter|].
  intros Heq. rewrite Heq in Hafter. discriminate Hafter.
Qed.


(** ** The codec *)

Import TLV.

Lemma length_byte_to_nat n : length_byte (Byte.to_nat n) = n.
Proof.
  unfold length_byte. pose proof (Byte.to_nat_bounded n).
  rewrite Nat.mod_small by lia. by rewrite Byte.of_to_nat.
Qed.

Lemma to_nat_length_byte n : n ≤ 255 → Byte.to_nat (length_byte n) = n.
Proof.
  intros Hn. unfold length_byte. rewrite Nat.mod_small by lia.
  destruct (Byte.of_nat n) as [b|] eqn:E.
  - by apply Byte.to_of_nat.
  - apply Byte.of_nat_None_iff in E. lia.
Qed.

Lemma decode_from_enough f1 f2 buf :
  length buf ≤ f1 → length buf ≤ f2 → decode_from f1 buf = decode_from f2 buf.
Proof.
  revert f2 buf. induction f1 as [|f1 IH]; intros f2 buf H1 H2.
  - destruct buf; [|simpl in H1; lia]. by destruct f2.
  - destruct f2 as [|f2].
    + destruct buf; [done|simpl in H2; lia].
    + destruct buf as [|c [|n value]]; simpl; try done.
      destruct (decide (c = xff)) as [|_]; [done|].
      destruct (length value <? Byte.to_nat n) eqn:E; [done|].
      f_equal. simpl in H1, H2.
      apply IH; rewrite length_drop; lia.
Qed.

Lemma decode_nil : decode [] = Entries [].
Proof. done. Qed.

Lemma decode_terminator rest : decode (xff :: rest) = Entries [terminator].
Proof. done. Qed.

Lemma decode_from_entry fuel c n value :
  c ≠ xff →
  Byte.to_nat n ≤ length value →
  decode_from (S fuel) (c :: n :: value)
  = and_then (c, take (Byte.to_nat n) value)
      (decode_from fuel (drop (Byte.to_nat n) value)).
Proof.
  intros Hc Hn. simpl.
  destruct (decide (c = xff)) as [|_]; [done|].
  destruct (length value <? Byte.to_nat n) eqn:E; [|done].
  apply Nat.ltb_lt in E. lia.
Qed.

Lemma decode_entry c n value :
  c ≠ xff →
  Byte.to_nat n ≤ length value →
  decode (c :: n :: value)
  = and_then (c, take (Byte.to_nat n) value) (decode (drop (Byte.to_nat n) value)).
Proof.
  intros Hc Hn. unfold decode.
  change (length (c :: n :: value)) with (S (S (length value))).
  rewrite decode_from_entry by done.
  f_equal. apply decode_from_enough; rewrite length_drop; lia.
Qed.

Lemma decode_overrun c tail : c ≠ xff → overrun tail → decode (c :: tail) = MalformedTLV.
Proof.
  intros Hc Ht. unfold decode. simpl.
  destruct (decide (c = xff)) as [|_]; [done|].
  destruct tail as [|n value]; [done|]. simpl in Ht.
  apply Nat.ltb_lt in Ht. by rewrite Ht.
Qed.

Lemma encode_cons e es : encode (e :: es) = encode_entry e ++ encode es.
Proof. done. Qed.

Lemma decode_encode_entry c p rest :
  c ≠ xff → length p ≤ 255 →
  decode (encode_entry (c, p) ++ rest) = and_then (c, p) (decode rest).
Proof.
  intros Hc Hp. unfold encode_entry.
  destruct (decide _) as [E|_].
  { injection E as -> _. done. }
  cbn [fst snd app]. rewrite decode_entry; [|done|].
  - rewrite (to_nat_length_byte _ Hp).
    by rewrite take_app_length, drop_app_length.
  - rewrite (to_nat_length_byte _ Hp), length_app. lia.
Qed.

Lemma decode_encode es : well_formed es = true → decode (encode es) = Entries es.
Proof.
  induction es as [|[c p] es IH]; [done|]. simpl.
  destruct (decide (c = xff)) as [->|Hc].
  - rewrite bool_decide_eq_true. intros [-> ->]. done.
  - rewrite andb_true_iff, Nat.leb_le. intros [Hp Hes].
    rewrite encode_cons, decode_encode_entry by done.
    by rewrite IH.
Qed.

Lemma decode_reads_past_end buf : reads_past_end buf → decode buf = MalformedTLV.
Proof.
  intros (es & c & tail & Hes & Hc & Ht & ->).
  induction Hes as [|[c' p] es [Hc' Hp] _ IH]; simpl.
  - by apply decode_overrun.
  - rewrite encode_cons, <- (assoc (++)).
    rewrite decode_encode_entry by done. by rewrite IH.
Qed.

Lemma decode_from_malformed fuel buf :
  decode_from fuel buf = MalformedTLV → reads_past_end buf.
Proof.
  revert buf. induction fuel as [|fuel IH]; intros buf; [done|]. simpl.
  destruct buf as [|c rest]; [done|].
  destruct (decide (c = xff)) as [|Hc]; [done|].
  destruct rest as [|n value].
  { intros _. exists [], c, []. split_and!; [constructor|done..]. }
  destruct (length value <? Byte.to_nat n) eqn:E.
  { intros _. apply Nat.ltb_lt in E.
    exists [], c, (n :: value). split_and!; [constructor|done..]. }
  apply Nat.ltb_ge in E.
  destruct (decode_from fuel (drop (Byte.to_nat n) value)) eqn:Hd; [done|].
  intros _. destruct (IH _ Hd) as (es & c' & tail & Hes & Hc' & Ht & Hbuf).
  exists ((c, take (Byte.to_nat n) value) :: es), c', tail.
  split_and!; try done.
  - constructor; [|done]. simpl. split; [done|].
    rewrite length_take. pose proof (Byte.to_nat_bounded n). lia.
  - rewrite encode_cons. unfold encode_entry.
    destruct (decide _) as [E'|_].
    { injection E' as -> _. done. }
    simpl. rewrite length_take, Nat.min_l by done.
    rewrite length_byte_to_nat, <- (assoc (++)), <- Hbuf.
    by rewrite take_drop.
Qed.

(** C9.  Decoding the encoding of a well formed sequence (payloads of at
    most 255 bytes, a terminator only at the end) gives the sequence
    back, and decoding fails with MalformedTLV exactly on the buffers in
    which a length byte would read past the end. *)
Theorem tlv_roundtrip :
  (∀ es, well_formed es = true → decode (encode es) = Entries es)
  ∧ (∀ buf, decode buf = MalformedTLV ↔ reads_past_end buf).
Proof.
  split.
  - apply decode_encode.
  - intros buf. split.
    + apply decode_from_malformed.
    + apply decode_reads_past_end.
Qed.

Lemma tlv_roundtrip_witness :
  decode (encode [(x06, [x08]); terminator]) = Entries [(x06, [x08]); terminator].
Proof. apply (proj1 tlv_roundtrip [(x06, [x08]); terminator]). reflexivity. Defined.

(** The payload [setup4] builds by hand for option 43 is the encoding of the
    discovery control entry followed by the terminator. *)
Lemma setup4_payload_encoded args s :
  ToBytes <$> (Value <$> opt43 (setup4 args s).2)
  = Some (encode [(x06, [x08]); terminator]).
Proof. reflexivity. Qed.

(** What the conditions on the sequence are for: entries after a
    terminator are written but not read back. *)
Example decode_stops_at_terminator :
  decode (encode [terminator; (x06, [x08])]) = Entries [terminator].
Proof. reflexivity. Qed.

Example decode_truncated : decode [x06; x02; x08] = MalformedTLV.
Proof. reflexivity. Qed.

(** * More about the handler *)

(** ** When it panics *)

Lemma qualifies_is_message s req : qualifies s req = true → is_message s req.
Proof.
  intros Hq. apply qualifies_true in Hq as [Hc _].
  by apply pxe_class_is_message.
Qed.

(** X1.  The handler panics exactly when the request pointer is nil, or
    the request passes both guards and the response is nil or has no
    option map, or a template is not built.  Nothing else makes it fail. *)
Theorem pxeHandler4_panics_iff s req resp :
  (∃ w, (pxeHandler4 req resp s).1 = Panic w)
  ↔ ¬ is_message s req
    ∨ ((pxe_class s req ∧ ∃ cmi, machine_id s req cmi)
       ∧ (¬ has_options s resp ∨ opt60 s = None ∨ opt43 s = None)).
Proof.
  rewrite <- qualifies_true.
  pose proof (pxeHandler4_handled req resp s) as H.
  inversion H as [w Hreq|m Hreq Hq|m w Hreq Hq Hresp|m m' w Hreq Hq Hresp H60
                  |m t60 w Hreq Hq Hresp H60|m r t60 w Hreq Hq Hresp H60 H43
                  |m r t60 t43 Hreq Hq Hresp H60 H43]; simpl.
  - split; [|by eauto]. intros _. left. intros [m Hm]. congruence.
  - split; [by intros [w ?]|].
    intros [Hn|[Hq' _]]; [|congruence]. destruct Hn. by exists m.
  - split; [|by eauto]. intros _. right. split; [done|]. left.
    intros [r Hr]. congruence.
  - split; [|by eauto]. intros _. right. split; [done|]. by right; left.
  - split; [|by eauto]. intros _. right. split; [done|]. left.
    intros [r Hr]. congruence.
  - split; [|by eauto]. intros _. right. split; [done|]. by right; right.
  - split; [by intros [w ?]|].
    intros [Hn|[_ [Hn|[?|?]]]]; [| |congruence..].
    + destruct Hn. by exists m.
    + destruct Hn. by exists r.
Qed.

(** X2.  A run that panics leaves the state as it was, provided the
    templates are in one of the two conditions the package puts them in:
    none built (before [setup4]) or both built (after). *)
Theorem pxeHandler4_panic_unchanged s req resp w :
  opt60 s = None ∨ is_Some (opt43 s) →
  (pxeHandler4 req resp s).1 = Panic w →
  (pxeHandler4 req resp s).2 = s.
Proof.
  intros Ht.
  pose proof (pxeHandler4_handled req resp s) as H.
  inversion H as [| | | | |m r t60 w' Hreq Hq Hresp H60 H43|]; simpl; try done.
  intros _. destruct Ht as [?|[? ?]]; congruence.
Qed.

Lemma pxeHandler4_panic_unchanged_witness :
  (pxeHandler4 boot_req reply idle).2 = idle.
Proof.
  apply (pxeHandler4_panic_unchanged idle boot_req reply
           "invalid memory address or nil pointer dereference").
  - left. reflexivity.
  - reflexivity.
Defined.

(** X3.  Whenever the handler returns, it returns the response pointer it
    was given and the flag false: it never hands back another message,
    never drops the response, and never asks the chain to stop. *)
Theorem pxeHandler4_result s req resp r b s' :
  pxeHandler4 req resp s = (Done (r, b), s') → r = resp ∧ b = false.
Proof.
  intros Hrun.
  pose proof (pxeHandler4_handled req resp s) as H.
  rewrite Hrun in H. inversion H; done.
Qed.

Lemma pxeHandler4_result_witness : reply = reply ∧ false = false.
Proof.
  apply (pxeHandler4_result booted short_req reply reply false booted).
  reflexivity.
Defined.

Lemma pxeHandler4_panics_iff_witness :
  ∃ w, (pxeHandler4 boot_req bare wide).1 = Panic w.
Proof.
  apply (proj2 (pxeHandler4_panics_iff wide boot_req bare)).
  right. split.
  - split.
    + exists vci32. split; [reflexivity|]. split; [reflexivity|].
      exists (drop 9 vci32). reflexivity.
    + exists uuid17. split; reflexivity.
  - left. intros [r Hr]. vm_compute in Hr. discriminate Hr.
Defined.

(** ** What it leaves alone *)

(** X4.  A run changes no message struct (no pointer is redirected, no
    map is allocated for a message), and the only map it can write to is
    the one the response holds: every other map is what it was. *)
Theorem pxeHandler4_heap_frame s req resp :
  msgs (mem (pxeHandler4 req resp s).2) = msgs (mem s)
  ∧ ∀ r, msgs (mem s) !! resp ≠ Some {| Options := Some r |} →
         maps (mem (pxeHandler4 req resp s).2) !! r = maps (mem s) !! r.
Proof.
  pose proof (pxeHandler4_handled req resp s) as H.
  inversion H as [| | | | |m r t60 w Hreq Hq Hresp|m r t60 t43 Hreq Hq Hresp];
    try done.
  all: split; [done|]; intros r' Hr'.
  all: assert (r ≠ r') as Hne by congruence.
  all: simpl; by rewrite !lookup_insert_ne.
Qed.

Lemma pxeHandler4_heap_frame_witness :
  msgs (mem (pxeHandler4 boot_req reply booted).2) = msgs (mem booted)
  ∧ ∀ r, msgs (mem booted) !! reply ≠ Some {| Options := Some r |} →
         maps (mem (pxeHandler4 boot_req reply booted).2) !! r
         = maps (mem booted) !! r.
Proof. apply (pxeHandler4_heap_frame booted boot_req reply). Defined.

(** ** The state after a run *)

Lemma pxeHandler4_after s req resp :
  Ready s → (pxeHandler4 req resp s).2 = after s req resp.
Proof.
  intros [H60 H43]. unfold after.
  pose proof (pxeHandler4_handled req resp s) as H.
  inversion H as [w Hreq|m Hreq Hq|m w Hreq Hq Hresp|m m' w Hreq Hq Hresp H60'
                  |m t60 w Hreq Hq Hresp H60'|m r t60 w Hreq Hq Hresp H60' H43'
                  |m r t60 t43 Hreq Hq Hresp H60' H43']; simpl; try congruence.
  - destruct (qualifies s req) eqn:Hq; [|done].
    apply qualifies_is_message in Hq as [m Hm]. congruence.
  - by rewrite Hq.
  - by rewrite Hq, Hresp.
  - by rewrite Hq, Hresp.
  - rewrite Hq, Hresp.
    assert (t60 = OptClassIdentifier PXEClient) as -> by congruence.
    assert (t43 = OptGeneric OptionVendorSpecificInformation [x06; x01; x08; xff])
      as -> by congruence.
    by rewrite put_three.
Qed.

(** X5.  In a ready state, for a request and a response with an option
    map, the handler logs its one line exactly when it adds the options,
    and logs nothing when it declines. *)
Theorem pxeHandler4_logged s req resp :
  Ready s →
  has_options s resp →
  logged (pxeHandler4 req resp s).2
  = logged s ++ (if qualifies s req then ["Added PXE options to request"] else []).
Proof.
  intros Hs [r Hresp]. rewrite (pxeHandler4_after _ _ _ Hs). unfold after.
  rewrite Hresp. destruct (qualifies s req); simpl; [done|].
  by rewrite app_nil_r.
Qed.

Lemma pxeHandler4_logged_witness :
  logged (pxeHandler4 boot_req reply booted).2
  = logged booted
    ++ (if qualifies booted boot_req then ["Added PXE options to request"] else []).
Proof.
  apply (pxeHandler4_logged booted boot_req reply).
  - split; reflexivity.
  - exists 2%positive. reflexivity.
Defined.

Lemma after_qualified s req resp cmi r :
  pxe_class s req →
  machine_id s req cmi →
  msgs (mem s) !! resp = Some {| Options := Some r |} →
  after s req resp
  = log_line "Added PXE options to request"
      (with_mem (store_map r (augmented cmi (map_at (mem s) r)) (mem s)) s).
Proof.
  intros Hc Hm Hresp. unfold after.
  assert (qualifies s req = true) as -> by (apply qualifies_true; eauto).
  by rewrite Hresp, (machine_id_payload _ _ _ Hm).
Qed.

(** X6.  When the handler adds the options, the option set of the
    response is the old one with the codes 60, 97 and 43 overwritten,
    whatever they held (a vendor option another handler put there is
    replaced, not merged); the response gains at most those three codes. *)
Theorem pxeHandler4_option_set s req resp cmi :
  Ready s →
  pxe_class s req →
  machine_id s req cmi →
  has_options s resp →
  opts (pxeHandler4 req resp s).2 resp
  = <[OptionVendorSpecificInformation := [x06; x01; x08; xff]]>
      (<[OptionClientMachineIdentifier := cmi]>
         (<[OptionClassIdentifier := PXEClient]> (opts s resp)))
  ∧ dom (opts (pxeHandler4 req resp s).2 resp)
    = {[OptionVendorSpecificInformation; OptionClientMachineIdentifier;
        OptionClassIdentifier]} ∪ dom (opts s resp).
Proof.
  intros Hs Hc Hm [r Hresp].
  rewrite (pxeHandler4_after _ _ _ Hs), (after_qualified _ _ _ _ _ Hc Hm Hresp).
  rewrite (opts_after_augment _ _ _ _ Hresp). unfold augmented.
  split; [done|]. rewrite !dom_insert_L. by rewrite !(assoc_L (∪)).
Qed.

Lemma pxeHandler4_option_set_witness :
  opts (pxeHandler4 boot_req reply booted).2 reply
  = <[OptionVendorSpecificInformation := [x06; x01; x08; xff]]>
      (<[OptionClientMachineIdentifier := uuid17]>
         (<[OptionClassIdentifier := PXEClient]> (opts booted reply)))
  ∧ dom (opts (pxeHandler4 boot_req reply booted).2 reply)
    = {[OptionVendorSpecificInformation; OptionClientMachineIdentifier;
        OptionClassIdentifier]} ∪ dom (opts booted reply).
Proof.
  apply (pxeHandler4_option_set booted boot_req reply uuid17).
  - split; reflexivity.
  - exists vci32. split; [reflexivity|]. split; [reflexivity|].
    exists (drop 9 vci32). reflexivity.
  - split; reflexivity.
  - exists 2%positive. reflexivity.
Defined.

(** ** Runs one after the other *)

Lemma Ready_after s req resp : Ready s → Ready (after s req resp).
Proof.
  intros Hs. unfold after.
  destruct (qualifies s req); [|done].
  by destruct (msgs (mem s) !! resp) as [[[r|]]|].
Qed.

Lemma msgs_after s req resp : msgs (mem (after s req resp)) = msgs (mem s).
Proof.
  unfold after. destruct (qualifies s req); [|done].
  by destruct (msgs (mem s) !! resp) as [[[r|]]|].
Qed.

Lemma map_at_after_ne s req resp r :
  msgs (mem s) !! resp ≠ Some {| Options := Some r |} →
  map_at (mem (after s req resp)) r = map_at (mem s) r.
Proof.
  intros Hr. unfold after. destruct (qualifies s req); [|done].
  destruct (msgs (mem s) !! resp) as [[[r'|]]|] eqn:Hresp; try done.
  simpl. apply map_at_store_map_ne. congruence.
Qed.

Lemma opts_after_ne s req resp d :
  ¬ shares_map s d resp → opts (after s req resp) d = opts s d.
Proof.
  intros Hsep. unfold opts, options_of. rewrite msgs_after.
  destruct (msgs (mem s) !! d) as [[[r|]]|] eqn:Hd; try done.
  apply map_at_after_ne. intros Hresp. apply Hsep. by exists r.
Qed.

Lemma qualifies_after_ne s req resp d :
  ¬ shares_map s d resp → qualifies (after s req resp) d = qualifies s d.
Proof.
  intros Hsep. unfold qualifies, payload. by rewrite opts_after_ne.
Qed.

Lemma augmented_absorb c1 c2 o : augmented c2 (augmented c1 o) = augmented c2 o.
Proof.
  unfold augmented. apply map_eq. intros c.
  rewrite !lookup_insert. by repeat case_decide.
Qed.

(** X7.  The last request wins.  In a ready state, when a request that
    passes both guards is handled on a response after any other run on
    that response, the heap is the one that request alone would have
    left: nothing of the earlier run's machine identifier remains. *)
Theorem pxeHandler4_last_wins s req1 req2 resp cmi :
  Ready s →
  pxe_class s req2 →
  machine_id s req2 cmi →
  ¬ shares_map s req2 resp →
  has_options s resp →
  mem (pxeHandler4 req2 resp (pxeHandler4 req1 resp s).2).2
  = mem (pxeHandler4 req2 resp s).2.
Proof.
  intros Hs Hc Hm Hsep [r Hresp].
  rewrite (pxeHandler4_after s req1 resp Hs).
  rewrite (pxeHandler4_after _ req2 resp (Ready_after _ req1 resp Hs)).
  rewrite (pxeHandler4_after s req2 resp Hs).
  set (s1 := after s req1 resp).
  assert (pxe_class s1 req2) as Hc1.
  { unfold pxe_class. subst s1. by rewrite opts_after_ne. }
  assert (machine_id s1 req2 cmi) as Hm1.
  { unfold machine_id. subst s1. by rewrite opts_after_ne. }
  assert (msgs (mem s1) !! resp = Some {| Options := Some r |}) as Hresp1.
  { subst s1. by rewrite msgs_after. }
  rewrite (after_qualified _ _ _ _ _ Hc1 Hm1 Hresp1).
  rewrite (after_qualified _ _ _ _ _ Hc Hm Hresp). simpl.
  subst s1. unfold after.
  destruct (qualifies s req1); [|done]. rewrite Hresp. simpl.
  by rewrite map_at_store_map, augmented_absorb, store_map_store_map.
Qed.

Lemma pxeHandler4_last_wins_witness :
  mem (pxeHandler4 boot_req2 reply (pxeHandler4 boot_req reply wide).2).2
  = mem (pxeHandler4 boot_req2 reply wide).2.
Proof.
  apply (pxeHandler4_last_wins wide boot_req boot_req2 reply uuid17').
  - split; reflexivity.
  - exists vci32. split; [reflexivity|]. split; [reflexivity|].
    exists (drop 9 vci32). reflexivity.
  - split; reflexivity.
  - intros (r & Hreq & Hresp). vm_compute in Hreq, Hresp. congruence.
  - exists 2%positive. reflexivity.
Defined.

Lemma after_after s req1 resp1 req2 resp2 :
  ¬ shares_map s req2 resp1 →
  ¬ shares_map s resp2 resp1 →
  after (after s req1 resp1) req2 resp2
  = if qualifies s req2 then
      match msgs (mem s) !! resp2 with
      | Some {| Options := Some r |} =>
          log_line "Added PXE options to request"
            (with_mem
               (store_map r
                  (augmented (payload s req2 OptionClientMachineIdentifier)
                     (map_at (mem s) r))
                  (mem (after s req1 resp1))) (after s req1 resp1))
      | _ => after s req1 resp1
      end
    else after s req1 resp1.
Proof.
  intros Hreq Hresp. unfold after at 1.
  rewrite (qualifies_after_ne _ _ _ _ Hreq), msgs_after.
  destruct (qualifies s req2); [|done].
  destruct (msgs (mem s) !! resp2) as [[[r|]]|] eqn:Hresp2; try done.
  unfold payload. rewrite (opts_after_ne _ _ _ _ Hreq).
  rewrite map_at_after_ne; [done|].
  intros Hresp1. apply Hresp. by exists r.
Qed.

(** X8.  Runs on two responses that hold different maps, neither of
    which is the map of the other run's request, can be made in either
    order: in a ready state both orders leave the same state. *)
Theorem pxeHandler4_commute s req1 resp1 req2 resp2 :
  Ready s →
  ¬ shares_map s req1 resp2 →
  ¬ shares_map s req2 resp1 →
  ¬ shares_map s resp1 resp2 →
  (pxeHandler4 req2 resp2 (pxeHandler4 req1 resp1 s).2).2
  = (pxeHandler4 req1 resp1 (pxeHandler4 req2 resp2 s).2).2.
Proof.
  intros Hs H12 H21 Hresp.
  assert (¬ shares_map s resp2 resp1) as Hresp'.
  { intros (r & ? & ?). apply Hresp. by exists r. }
  rewrite (pxeHandler4_after s req1 resp1 Hs), (pxeHandler4_after s req2 resp2 Hs).
  rewrite (pxeHandler4_after _ req2 resp2 (Ready_after _ req1 resp1 Hs)).
  rewrite (pxeHandler4_after _ req1 resp1 (Ready_after _ req2 resp2 Hs)).
  rewrite (after_after _ _ _ _ _ H21 Hresp'), (after_after _ _ _ _ _ H12 Hresp).
  unfold after.
  destruct (qualifies s req1), (qualifies s req2); try done.
  destruct (msgs (mem s) !! resp1) as [[[r1|]]|] eqn:H1,
           (msgs (mem s) !! resp2) as [[[r2|]]|] eqn:H2; try done.
  assert (r1 ≠ r2) as Hne.
  { intros ->. apply Hresp. by exists r2. }
  unfold log_line, with_mem, store_map. simpl. f_equal.
  f_equal. by apply insert_insert_ne.
Qed.

Lemma pxeHandler4_commute_witness :
  (pxeHandler4 boot_req2 reply2 (pxeHandler4 boot_req reply wide).2).2
  = (pxeHandler4 boot_req reply (pxeHandler4 boot_req2 reply2 wide).2).2.
Proof.
  apply (pxeHandler4_commute wide boot_req reply boot_req2 reply2).
  - split; reflexivity.
  - intros (r & Ha & Hb). vm_compute in Ha, Hb. congruence.
  - intros (r & Ha & Hb). vm_compute in Ha, Hb. congruence.
  - intros (r & Ha & Hb). vm_compute in Ha, Hb. congruence.
Defined.

(** ** Request and response in one map *)

(** X9.  When the request shares its option map with the response (the
    same message is passed twice, say), adding the options overwrites the
    class identifier of the request with the 9 bytes "PXEClient": the
    request no longer passes the first guard, and the next run on it
    declines and changes nothing. *)
Theorem pxeHandler4_shared_map s req resp cmi :
  Ready s →
  pxe_class s req →
  machine_id s req cmi →
  shares_map s req resp →
  let s' := (pxeHandler4 req resp s).2 in
  opts s' req !! OptionClassIdentifier = Some PXEClient
  ∧ ¬ pxe_class s' req
  ∧ pxeHandler4 req resp s' = (Done (resp, false), s').
Proof.
  intros Hs Hc Hm (r & Hreq & Hresp) s'.
  assert (opts s' req !! OptionClassIdentifier = Some PXEClient) as H60.
  { subst s'. rewrite (pxeHandler4_after _ _ _ Hs).
    rewrite (after_qualified _ _ _ _ _ Hc Hm Hresp).
    rewrite (opts_after_augment _ _ _ _ Hreq). unfold augmented.
    by rewrite lookup_insert_ne, lookup_insert_ne, lookup_insert_eq. }
  assert (¬ pxe_class s' req) as Hn.
  { intros (v & Hv & Hl & _). rewrite H60 in Hv. injection Hv as <-.
    discriminate Hl. }
  split_and!; [done..|].
  apply (pxeHandler4_skip _ _ _ {| Options := Some r |}).
  - subst s'. by rewrite (pxeHandler4_after _ _ _ Hs), msgs_after.
  - apply not_true_is_false. rewrite qualifies_true. tauto.
Qed.

Lemma pxeHandler4_shared_map_witness :
  let s' := (pxeHandler4 boot_req boot_req booted).2 in
  opts s' boot_req !! OptionClassIdentifier = Some PXEClient
  ∧ ¬ pxe_class s' boot_req
  ∧ pxeHandler4 boot_req boot_req s' = (Done (boot_req, false), s').
Proof.
  apply (pxeHandler4_shared_map booted boot_req boot_req uuid17).
  - split; reflexivity.
  - exists vci32. split; [reflexivity|]. split; [reflexivity|].
    exists (drop 9 vci32). reflexivity.
  - split; reflexivity.
  - exists 1%positive. split; reflexivity.
Defined.

(** ** From registration to the first reply *)

(** X10.  The registered plugin is named "pxe", and its setup function
    makes the handler usable from any state, whatever the templates held
    before: the handler it returns, run on the state it leaves, adds the
    three options for a request that passes both guards. *)
Theorem Plugin_setup_then_handle args s req resp cmi :
  pxe_class s req →
  machine_id s req cmi →
  has_options s resp →
  Name Plugin = "pxe"
  ∧ ∃ h s1 s2,
      Setup4 Plugin args s = (Done (h, None), s1)
      ∧ h req resp s1 = (Done (resp, false), s2)
      ∧ opts s2 resp !! OptionClassIdentifier = Some PXEClient
      ∧ opts s2 resp !! OptionClientMachineIdentifier = Some cmi
      ∧ opts s2 resp !! OptionVendorSpecificInformation
        = Some [x06; x01; x08; xff].
Proof.
  intros Hc Hm [r Hresp]. split; [done|].
  set (s1 := (setup4 args s).2).
  assert (Ready s1) as Hs1 by apply setup4_Ready.
  assert (msgs (mem s1) !! resp = Some {| Options := Some r |}) as Hresp1 by done.
  exists pxeHandler4, s1. eexists. split; [done|]. split.
  { apply (pxeHandler4_qualified s1 req resp cmi r Hs1); done. }
  rewrite (opts_after_augment _ _ _ _ Hresp1). unfold augmented.
  split_and!.
  - by rewrite lookup_insert_ne, lookup_insert_ne, lookup_insert_eq.
  - by rewrite lookup_insert_ne, lookup_insert_eq.
  - by rewrite lookup_insert_eq.
Qed.

Lemma Plugin_setup_then_handle_witness :
  Name Plugin = "pxe"
  ∧ ∃ h s1 s2,
      Setup4 Plugin ["ignored"] idle = (Done (h, None), s1)
      ∧ h boot_req reply s1 = (Done (reply, false), s2)
      ∧ opts s2 reply !! OptionClassIdentifier = Some PXEClient
      ∧ opts s2 reply !! OptionClientMachineIdentifier = Some uuid17
      ∧ opts s2 reply !! OptionVendorSpecificInformation
        = Some [x06; x01; x08; xff].
Proof.
  apply (Plugin_setup_then_handle ["ignored"] idle boot_req reply uuid17).
  - exists vci32. split; [reflexivity|]. split; [reflexivity|].
    exists (drop 9 vci32). reflexivity.
  - split; reflexivity.
  - exists 2%positive. reflexivity.
Defined.
